(** * Billing reconciliation: the calculation service and the update handler

    Shallow embedding of [services/calculationService.ts] ([cleanCnpj],
    [calculateBill], [reconcileData]), of the types of [types.ts] and of the
    [handleUpdate] state transformer of [App.tsx].

    Modelling choices.
    - A JavaScript [number] is modelled twice.  In the main development it
      is an exact rational ([Q]): [NaN], the infinities and binary rounding
      are outside that model, which carries the structural properties and
      the ones about order and sign.  In [Module Binary64] it is an IEEE 754
      binary64 value (Rocq's primitive [float]), with the rounded
      operations, the signed zeros, the infinities and [NaN] of the
      program; the equations of the pricing formulas are stated there.
    - A JavaScript string is a [string] of bytes.  Every byte of a character
      outside ASCII is itself outside ['0'..'9'], so removing the non-digit
      bytes and removing the non-digit characters give the same text.
    - [Map<string, PricingRule>] is a [gmap string PricingRule].
    - Template literals print numbers with the runtime's number-to-string
      conversion, which the development takes as a parameter (the class
      [NumberToString]). *)

From Stdlib Require Import Floats.
From Stdlib Require Import QArith Lqa String Ascii List Permutation.
From stdpp Require Import gmap strings list fin_maps pretty.

Local Open Scope string_scope.

(** ** types.ts *)

Record SocData := mkSocData {
  soc_cnpj : string;
  companyName : string;
  activeEmployees : Q
}.

(** [model] is declared [PricingModel]; at run time it holds whatever text
    the pricing row carried, and the [default] of the [switch] is there for
    the other strings. *)
Record PricingRule := mkPricingRule {
  rule_cnpj : string;
  model : string;
  basePrice : Q;
  includedEmployees : option Q;
  excessPrice : option Q;
  minEmployees : option Q
}.

Inductive Status := READY | MISSING_RULE | MISSING_SOC.

Record BillingResult := mkBillingResult {
  socData : SocData;
  pricingRule : option PricingRule;
  calculatedAmount : Q;
  details : string;
  status : Status
}.

(** The members of [enum PricingModel]: each is its own name as a string. *)
Module PricingModel.
Definition TIERED : string := "TIERED".
Definition PER_HEAD_MIN : string := "PER_HEAD_MIN".
Definition FLAT : string := "FLAT".
End PricingModel.

(** ** JavaScript primitives used by the service *)

(** The character class [\d]: the ten ASCII digits. *)
Definition is_digit (c : ascii) : bool :=
  let n := N_of_ascii c in ((48 <=? n) && (n <=? 57))%N.

(** [s.replace(/[cls]/g, by)] for a one-character class [cls]: every
    character of the class is replaced, the others are copied. *)
Fixpoint replace_class (cls : ascii -> bool) (by_ : string) (s : string) : string :=
  match s with
  | EmptyString => EmptyString
  | String c rest =>
      if cls c then by_ ++ replace_class cls by_ rest
      else String c (replace_class cls by_ rest)
  end.

(** [x || 0] on an optional number: [undefined] and [0] are falsy. *)
Definition or_zero (x : option Q) : Q :=
  match x with
  | Some q => if Qeq_bool q 0 then 0%Q else q
  | None => 0%Q
  end.

(** [Math.max(a, b)]. *)
Definition Math_max (a b : Q) : Q := if Qle_bool a b then b else a.

(** ** calculationService.ts *)

Definition cleanCnpj (cnpj : string) : string :=
  replace_class (fun c => negb (is_digit c)) "" cnpj.

(** ** Specification-side vocabulary *)

(** The record with its count replaced: [{ ...soc, activeEmployees: n }]. *)
Definition with_active (n : Q) (soc : SocData) : SocData :=
  {| soc_cnpj := soc_cnpj soc; companyName := companyName soc; activeEmployees := n |}.

(** The normalized identifiers of a rule and of a record. *)
Definition rule_key (r : PricingRule) : string := cleanCnpj (rule_cnpj r).
Definition soc_key (soc : SocData) : string := cleanCnpj (soc_cnpj soc).

(** [r] is the last rule of the list whose normalized identifier is [k]. *)
Definition last_with_key (k : string) (rulesList : list PricingRule)
  (r : PricingRule) : Prop :=
  exists before after,
    rulesList = (before ++ r :: after)%list /\
    rule_key r = k /\
    forall r', In r' after -> rule_key r' <> k.



(** The held rule of a result has the normalized identifier of its record. *)
Definition rule_matches (item : BillingResult) : Prop :=
  forall r, pricingRule item = Some r -> rule_key r = soc_key (socData item).

(** The runtime's conversion of a number to text inside a template literal. *)
Class NumberToString := number_to_string : Q -> string.

Section Service.

Context {printer : NumberToString}.

Local Open Scope Q_scope.

Definition calculateBill (soc : SocData) (rule : option PricingRule) : BillingResult :=
  match rule with
  | None =>
      {| socData := soc;
         pricingRule := None;
         calculatedAmount := 0;
         details := "Regra de contrato não encontrada";
         status := MISSING_RULE |}
  | Some rule =>
      let '(amount, text) :=
        if String.eqb (model rule) PricingModel.TIERED then
          let included := or_zero (includedEmployees rule) in
          let excessRate := or_zero (excessPrice rule) in
          if Qle_bool (activeEmployees soc) included then
            (basePrice rule,
             "Fixo (Até " ++ number_to_string included ++ " func.)")
          else
            let excessCount := activeEmployees soc - included in
            let excessTotal := excessCount * excessRate in
            (basePrice rule + excessTotal,
             "Base R$" ++ number_to_string (basePrice rule) ++ " + (" ++
             number_to_string excessCount ++ " extras x R$" ++
             number_to_string excessRate ++ ")")
        else if String.eqb (model rule) PricingModel.PER_HEAD_MIN then
          let min := or_zero (minEmployees rule) in
          let rate := basePrice rule in
          let billableCount := Math_max (activeEmployees soc) min in
          (billableCount * rate,
           number_to_string billableCount ++ " faturados x R$" ++
           number_to_string rate ++ " (Mínimo: " ++ number_to_string min ++ ")")
        else if String.eqb (model rule) PricingModel.FLAT then
          (basePrice rule, "Valor fixo mensal")
        else
          (0, "Modelo desconhecido")
      in
      {| socData := soc;
         pricingRule := Some rule;
         calculatedAmount := amount;
         details := text;
         status := READY |}
  end.

(** The lookup table of [reconcileData]: [rulesList.forEach(r => rulesMap.set(...))]. *)
Definition rulesMap (rulesList : list PricingRule) : gmap string PricingRule :=
  foldl (fun m r => <[cleanCnpj (rule_cnpj r) := r]> m) ∅ rulesList.

(** [socList.forEach(soc => results.push(...))], starting from [[]]. *)
Definition reconcileData (socList : list SocData) (rulesList : list PricingRule)
  : list BillingResult :=
  let rules := rulesMap rulesList in
  foldl (fun results soc =>
           let cleanId := cleanCnpj (soc_cnpj soc) in
           let rule := rules !! cleanId in
           (results ++ [calculateBill soc rule])%list)
        [] socList.

(** ** App.tsx: the state and [handleUpdate] *)

(** The two pieces of state the handlers write; the flags [isAnalyzing] and
    [sidebarCollapsed] play no part in them. *)
Record AppState := mkAppState {
  results : list BillingResult;
  analysis : option string
}.

(** The updater handed to [setResults] by [handleUpdate]. *)
Definition updateResults (cnpj : string) (newEmployees : Q)
  (prev : list BillingResult) : list BillingResult :=
  map (fun item =>
         if String.eqb (soc_cnpj (socData item)) cnpj then
           let newSocData :=
             {| soc_cnpj := soc_cnpj (socData item);
                companyName := companyName (socData item);
                activeEmployees := newEmployees |} in
           calculateBill newSocData (pricingRule item)
         else item)
      prev.

Definition handleUpdate (cnpj : string) (newEmployees : Q) (st : AppState) : AppState :=
  {| results := updateResults cnpj newEmployees (results st);
     analysis := None |}.

(** [handleDataLoaded] and [handleDelete], the other two writers of [results]. *)
Definition handleDataLoaded (socList : list SocData) (pricingData : list PricingRule)
  (st : AppState) : AppState :=
  {| results := reconcileData socList pricingData; analysis := None |}.

Definition deleteResults (cnpj : string) (prev : list BillingResult)
  : list BillingResult :=
  List.filter (fun item => negb (String.eqb (soc_cnpj (socData item)) cnpj)) prev.

Definition handleDelete (cnpj : string) (st : AppState) : AppState :=
  {| results := deleteResults cnpj (results st); analysis := None |}.

(** The states of the application: [useState([])] and [useState(null)] at
    the start, then the handlers; [generateReport] only stores a report. *)
Inductive reachable : AppState -> Prop :=
| reach_initial : reachable {| results := []; analysis := None |}
| reach_loaded st socList pricingData :
    reachable st -> reachable (handleDataLoaded socList pricingData st)
| reach_delete st cnpj :
    reachable st -> reachable (handleDelete cnpj st)
| reach_update st cnpj newEmployees :
    reachable st -> reachable (handleUpdate cnpj newEmployees st)
| reach_report st report :
    reachable st -> reachable {| results := results st; analysis := Some report |}.

(** What the updater does to one element. *)
Definition updateItem (cnpj : string) (n : Q) (item : BillingResult) : BillingResult :=
  if String.eqb (soc_cnpj (socData item)) cnpj
  then calculateBill (with_active n (socData item)) (pricingRule item)
  else item.

(** The rule the reconciler hands to the pricing engine for a record. *)
Definition matched_rule (rulesList : list PricingRule) (soc : SocData)
  : option PricingRule :=
  rulesMap rulesList !! soc_key soc.

End Service.

(** The characters the specification calls decimal digits. *)
Definition decimal_digits : list ascii := list_ascii_of_string "0123456789".

(** ** calculationService.ts over binary64

    [calculateBill] once more, with every number a binary64 value and every
    operation the rounded one of the program. *)

Module Binary64.

Local Open Scope float_scope.

Record SocData := mkSocData {
  cnpj : string;
  companyName : string;
  activeEmployees : float
}.

Record PricingRule := mkPricingRule {
  rule_cnpj : string;
  model : string;
  basePrice : float;
  includedEmployees : option float;
  excessPrice : option float;
  minEmployees : option float
}.

Record BillingResult := mkBillingResult {
  socData : SocData;
  pricingRule : option PricingRule;
  calculatedAmount : float;
  details : string;
  status : Status
}.

(** A number is falsy when it is [NaN], [0] or [-0]. *)
Definition falsy (x : float) : bool := PrimFloat.is_nan x || PrimFloat.is_zero x.

(** [x || 0] on an optional number. *)
Definition or_zero (x : option float) : float :=
  match x with
  | Some f => if falsy f then 0 else f
  | None => 0
  end.

(** [Math.max(a, b)]: [NaN] when an argument is [NaN]; otherwise the second
    argument when the first is smaller, or when the first is [-0] and the
    second a zero; otherwise the first. *)
Definition Math_max (a b : float) : float :=
  if PrimFloat.is_nan a || PrimFloat.is_nan b then PrimFloat.nan
  else if a <? b then b
  else if PrimFloat.is_zero a && PrimFloat.is_zero b && PrimFloat.get_sign a then b
  else a.

(** The runtime's conversion of a number to text inside a template literal. *)
Class NumberToString := number_to_string : float -> string.

Definition calculateBill {printer : NumberToString}
  (soc : SocData) (rule : option PricingRule) : BillingResult :=
  match rule with
  | None =>
      {| socData := soc;
         pricingRule := None;
         calculatedAmount := 0;
         details := "Regra de contrato não encontrada";
         status := MISSING_RULE |}
  | Some rule =>
      let '(amount, text) :=
        if String.eqb (model rule) PricingModel.TIERED then
          let included := or_zero (includedEmployees rule) in
          let excessRate := or_zero (excessPrice rule) in
          if activeEmployees soc <=? included then
            (basePrice rule,
             ("Fixo (Até " ++ number_to_string included ++ " func.)")%string)
          else
            let excessCount := activeEmployees soc - included in
            let excessTotal := excessCount * excessRate in
            (basePrice rule + excessTotal,
             ("Base R$" ++ number_to_string (basePrice rule) ++ " + (" ++
              number_to_string excessCount ++ " extras x R$" ++
              number_to_string excessRate ++ ")")%string)
        else if String.eqb (model rule) PricingModel.PER_HEAD_MIN then
          let min := or_zero (minEmployees rule) in
          let rate := basePrice rule in
          let billableCount := Math_max (activeEmployees soc) min in
          (billableCount * rate,
           (number_to_string billableCount ++ " faturados x R$" ++
            number_to_string rate ++ " (Mínimo: " ++ number_to_string min ++ ")")%string)
        else if String.eqb (model rule) PricingModel.FLAT then
          (basePrice rule, "Valor fixo mensal")
        else
          (0, "Modelo desconhecido")
      in
      {| socData := soc;
         pricingRule := Some rule;
         calculatedAmount := amount;
         details := text;
         status := READY |}
  end.

(** A printer to run the pricing engine with; the amounts do not depend on
    it. *)
Definition blank_printer : NumberToString := fun _ => "#".

End Binary64.

(** ** Sample data *)

(** A printer to run the service with: integers in decimal, other rationals
    as numerator/denominator. *)
Definition show_number : NumberToString := fun q =>
  let r := Qred q in
  if Pos.eqb (Qden r) 1 then pretty (Qnum r)
  else pretty (Qnum r) ++ "/" ++ pretty (Zpos (Qden r)).

Definition acme (n : Q) : SocData := mkSocData "12345678000190" "Acme" n.

Definition tiered_rule : PricingRule :=
  mkPricingRule "12.345.678/0001-90" PricingModel.TIERED 129 (Some 5%Q) (Some 12%Q) None.
Definition per_head_rule : PricingRule :=
  mkPricingRule "12.345.678/0001-90" PricingModel.PER_HEAD_MIN 13 None None (Some 10%Q).
Definition flat_rule : PricingRule :=
  mkPricingRule "12 345 678 0001 90" PricingModel.FLAT 500 None None None.
Definition hourly_rule : PricingRule :=
  mkPricingRule "12.345.678/0001-90" "HOURLY" 40 None None None.
Definition other_rule : PricingRule :=
  mkPricingRule "98.765.432/0001-10" PricingModel.FLAT 75 None None None.

Definition sample_results : list BillingResult :=
  @reconcileData show_number
    [acme 4; mkSocData "11.111.111/0001-11" "Nobody" 3] [tiered_rule].

Definition nobody : SocData := mkSocData "11.111.111/0001-11" "Nobody" 3.

(** The state after loading two records and one rule, then editing a count. *)
Definition initial_state : AppState := {| results := []; analysis := None |}.
Definition loaded_state : AppState :=
  @handleDataLoaded show_number [acme 4; nobody] [tiered_rule] initial_state.
Definition edited_state : AppState :=
  @handleUpdate show_number "12345678000190" 8 loaded_state.

(** Prices with cents, and a count at the edge of the exact integers. *)
#[local] Set Warnings "-inexact-float".

Definition acme64 (n : float) : Binary64.SocData :=
  Binary64.mkSocData "12345678000190" "Acme" n.
Definition cents_rule : Binary64.PricingRule :=
  Binary64.mkPricingRule "12.345.678/0001-90" PricingModel.TIERED
    129.9%float (Some 5%float) (Some 12.9%float) None.
Definition unit_rule : Binary64.PricingRule :=
  Binary64.mkPricingRule "12.345.678/0001-90" PricingModel.TIERED
    1%float None (Some 1%float) None.
Definition dime_rule : Binary64.PricingRule :=
  Binary64.mkPricingRule "12.345.678/0001-90" PricingModel.PER_HEAD_MIN
    0.1%float None None None.
Definition seventy_rule : Binary64.PricingRule :=
  Binary64.mkPricingRule "12.345.678/0001-90" PricingModel.PER_HEAD_MIN
    0.7%float None None (Some 3%float).

(** A result whose held rule does not carry the identifier of its record:
    no handler produces such a result. *)
Definition stray_rule : PricingRule :=
  mkPricingRule "2" PricingModel.FLAT 500 None None None.
Definition stray_item : BillingResult :=
  mkBillingResult (mkSocData "1" "Acme" 2) (Some stray_rule) 500 "Valor fixo mensal" READY.

(** ** App.tsx: the dashboard figures *)

(** [status === 'READY']. *)
Definition is_ready (s : Status) : bool :=
  match s with READY => true | _ => false end.

Section Dashboard.

Local Open Scope Q_scope.

(** [results.reduce((acc, curr) => acc + curr.calculatedAmount, 0)]. *)
Definition totalRevenue (results : list BillingResult) : Q :=
  foldl (fun acc curr => acc + calculatedAmount curr) 0 results.

Definition readyCount (results : list BillingResult) : nat :=
  length (List.filter (fun r => is_ready (status r)) results).

Definition errorCount (results : list BillingResult) : nat :=
  length (List.filter (fun r => negb (is_ready (status r))) results).

(** ** geminiService.ts: what [analyzeBilling] computes for its prompt *)

Record SummaryRow := mkSummaryRow {
  company : string;
  employees : Q;
  amount : Q;
  summary_details : string
}.

Definition successfulBills (results : list BillingResult) : list BillingResult :=
  List.filter (fun r => is_ready (status r)) results.

Definition totalRev (results : list BillingResult) : Q :=
  foldl (fun acc curr => acc + calculatedAmount curr) 0 (successfulBills results).

Definition summaryData (results : list BillingResult) : list SummaryRow :=
  map (fun b =>
         {| company := companyName (socData b);
            employees := activeEmployees (socData b);
            amount := calculatedAmount b;
            summary_details := details b |})
      (successfulBills results).

(** [summaryData.slice(0, 30)], the rows quoted in the prompt. *)
Definition promptSample (results : list BillingResult) : list SummaryRow :=
  firstn 30 (summaryData results).

End Dashboard.

(** ** ResultsTable.tsx *)

(** [getRuleLabel(model?)]; [None] is [undefined]. *)
Definition getRuleLabel (model : option string) : string :=
  match model with
  | Some m =>
      if String.eqb m "TIERED" then "Escalonado"
      else if String.eqb m "PER_HEAD_MIN" then "Mínimo/Vidas"
      else if String.eqb m "FLAT" then "Valor Fixo"
      else "-"
  | None => "-"
  end.

(** The updater of [toggleRow]: a copy of the set with [cnpj] flipped. *)
Definition toggleRow (cnpj : string) (prev : gset string) : gset string :=
  if decide (cnpj ∈ prev) then prev ∖ {[cnpj]} else prev ∪ {[cnpj]}.

Inductive SortKey :=
  SortStatus | SortCompanyName | SortActiveEmployees | SortCalculatedAmount.
Inductive SortDirection := asc | desc.

Record SortConfig := mkSortConfig {
  sort_key : SortKey;
  direction : SortDirection
}.

Definition SortKey_eqb (a b : SortKey) : bool :=
  match a, b with
  | SortStatus, SortStatus
  | SortCompanyName, SortCompanyName
  | SortActiveEmployees, SortActiveEmployees
  | SortCalculatedAmount, SortCalculatedAmount => true
  | _, _ => false
  end.

(** The updater of [handleSort]. *)
Definition handleSort (key : SortKey) (current : SortConfig) : SortConfig :=
  {| sort_key := key;
     direction :=
       if SortKey_eqb (sort_key current) key
          && match direction current with asc => true | desc => false end
       then desc else asc |}.

(** The values of the status [select]. *)
Inductive StatusFilter := FilterAll | FilterReady | FilterError.

(** [s.includes(sub)]. *)
Fixpoint includes (s sub : string) : bool :=
  if String.prefix sub s then true
  else match s with
       | EmptyString => false
       | String _ rest => includes rest sub
       end.

(** [<] on the numbers of the rational model. *)
Definition Qlt_bool (a b : Q) : bool :=
  (Qnum a * QDen b <? Qnum b * QDen a)%Z.

(** [Array.prototype.sort(cmp)] is stable: an element goes before the first
    element it does not compare greater than, the head of the array first. *)
Fixpoint sort_insert {A} (cmp : A -> A -> Z) (x : A) (l : list A) : list A :=
  match l with
  | [] => [x]
  | y :: rest =>
      if (cmp x y <=? 0)%Z then x :: l else y :: sort_insert cmp x rest
  end.

Fixpoint js_sort {A} (cmp : A -> A -> Z) (l : list A) : list A :=
  match l with
  | [] => []
  | x :: rest => sort_insert cmp x (js_sort cmp rest)
  end.

(** The tail of the comparator: [-1], [1] or [0], mirrored when descending. *)
Definition compare_by {V} (lt : V -> V -> bool) (dir : SortDirection) (valA valB : V) : Z :=
  if lt valA valB then match dir with asc => -1 | desc => 1 end
  else if lt valB valA then match dir with asc => 1 | desc => -1 end
  else 0%Z.

(** The runtime's [toLowerCase] and [<] on strings. *)
Class StringOps := {
  toLowerCase : string -> string;
  string_lt : string -> string -> bool
}.

(** The inline editor of the active count. *)
Record EditState := mkEditState {
  editingCnpj : option string;
  editValue : Q
}.

Definition startEditing (item : BillingResult) (ed : EditState) : EditState :=
  {| editingCnpj := Some (soc_cnpj (socData item));
     editValue := activeEmployees (socData item) |}.

Section Table.

Context {strings : StringOps}.

Definition compareResults (sortConfig : SortConfig) (a b : BillingResult) : Z :=
  match sort_key sortConfig with
  | SortCompanyName =>
      compare_by string_lt (direction sortConfig)
        (toLowerCase (companyName (socData a)))
        (toLowerCase (companyName (socData b)))
  | SortActiveEmployees =>
      compare_by Qlt_bool (direction sortConfig)
        (activeEmployees (socData a)) (activeEmployees (socData b))
  | SortCalculatedAmount =>
      compare_by Qlt_bool (direction sortConfig)
        (calculatedAmount a) (calculatedAmount b)
  | SortStatus =>
      compare_by Z.ltb (direction sortConfig)
        (if is_ready (status a) then 1 else 0)%Z
        (if is_ready (status b) then 1 else 0)%Z
  end.

(** The two filters of [processedResults]. *)
Definition searchFilter (searchTerm : string) (data : list BillingResult)
  : list BillingResult :=
  match searchTerm with
  | EmptyString => data
  | _ =>
      let lowerTerm := toLowerCase searchTerm in
      List.filter
        (fun item =>
           includes (toLowerCase (companyName (socData item))) lowerTerm
           || includes (soc_cnpj (socData item)) lowerTerm)
        data
  end.

Definition statusFilterRows (statusFilter : StatusFilter) (data : list BillingResult)
  : list BillingResult :=
  match statusFilter with
  | FilterAll => data
  | FilterReady => List.filter (fun item => is_ready (status item)) data
  | FilterError => List.filter (fun item => negb (is_ready (status item))) data
  end.

Definition processedResults (results : list BillingResult) (searchTerm : string)
  (statusFilter : StatusFilter) (sortConfig : SortConfig) : list BillingResult :=
  let data := results in
  let data := searchFilter searchTerm data in
  let data := statusFilterRows statusFilter data in
  js_sort (compareResults sortConfig) data.

End Table.

Section Editing.

Context {printer : NumberToString}.

(** [saveEditing] with [onUpdate] bound to [handleUpdate]: the empty
    identifier is falsy, like [null]. *)
Definition saveEditing (ed : EditState) (st : AppState) : EditState * AppState :=
  match editingCnpj ed with
  | Some (String _ _ as cnpj) =>
      ({| editingCnpj := None; editValue := editValue ed |},
       handleUpdate cnpj (editValue ed) st)
  | _ => (ed, st)
  end.

(** A result is the bill of the record and the rule it holds. *)
Definition own_bill (item : BillingResult) : Prop :=
  item = calculateBill (socData item) (pricingRule item).

End Editing.

(** A string runtime to run the table with: ASCII lower case and the
    byte-wise order. *)
Definition ascii_lower (c : ascii) : ascii :=
  let n := N_of_ascii c in
  if ((65 <=? n) && (n <=? 90))%N then ascii_of_N (n + 32) else c.

Fixpoint lower_string (s : string) : string :=
  match s with
  | EmptyString => EmptyString
  | String c rest => String (ascii_lower c) (lower_string rest)
  end.

Definition ascii_strings : StringOps :=
  {| toLowerCase := lower_string; string_lt := String.ltb |}.

(** * Properties *)

Example cleanCnpj_formatted : cleanCnpj "12.345.678/0001-90" = "12345678000190".
Proof. reflexivity. Qed.

Section Properties.

Context {printer : NumberToString}.

Local Open Scope Q_scope.

(** ** JavaScript primitives against their mathematical reading *)

Lemma is_digit_spec (c : ascii) : is_digit c = true <-> In c decimal_digits.
Proof.
  split.
  - destruct c as [[] [] [] [] [] [] [] []]; vm_compute; intros H;
      try discriminate H; tauto.
  - intros H. repeat (destruct H as [<-|H]; [reflexivity|]). destruct H.
Qed.

Lemma cleanCnpj_filter (s : string) :
  list_ascii_of_string (cleanCnpj s)
  = List.filter is_digit (list_ascii_of_string s).
Proof.
  induction s as [|c s IH]; [reflexivity|].
  change (cleanCnpj (String c s)) with
    (if negb (is_digit c) then cleanCnpj s else String c (cleanCnpj s)).
  simpl. destruct (is_digit c); simpl; now rewrite IH.
Qed.




(** ** The pricing engine, branch by branch *)

Lemma calculateBill_absent (soc : SocData) :
  calculateBill soc None =
  mkBillingResult soc None 0 "Regra de contrato não encontrada" MISSING_RULE.
Proof. reflexivity. Qed.

Lemma calculateBill_socData soc rule : socData (calculateBill soc rule) = soc.
Proof.
  destruct rule as [r|]; [|reflexivity]. unfold calculateBill.
  repeat match goal with |- context [if ?b then _ else _] => destruct b end;
    reflexivity.
Qed.

Lemma calculateBill_pricingRule soc rule : pricingRule (calculateBill soc rule) = rule.
Proof.
  destruct rule as [r|]; [|reflexivity]. unfold calculateBill.
  repeat match goal with |- context [if ?b then _ else _] => destruct b end;
    reflexivity.
Qed.

Lemma calculateBill_status soc rule :
  status (calculateBill soc rule) =
  match rule with Some _ => READY | None => MISSING_RULE end.
Proof.
  destruct rule as [r|]; [|reflexivity]. unfold calculateBill.
  repeat match goal with |- context [if ?b then _ else _] => destruct b end;
    reflexivity.
Qed.




Lemma switch_default soc r :
  model r <> "TIERED" -> model r <> "PER_HEAD_MIN" -> model r <> "FLAT" ->
  calculateBill soc (Some r) =
  mkBillingResult soc (Some r) 0 "Modelo desconhecido" READY.
Proof.
  intros H1 H2 H3. unfold calculateBill.
  apply String.eqb_neq in H1, H2, H3.
  unfold PricingModel.TIERED, PricingModel.PER_HEAD_MIN, PricingModel.FLAT.
  now rewrite H1, H2, H3.
Qed.

(** C6. A present rule whose model is none of TIERED, PER_HEAD_MIN and FLAT
    is billed 0 with the text "Modelo desconhecido" under status READY; the
    status is MISSING_RULE only when no rule is given. *)
Theorem unknown_model_ready (soc : SocData) (rule : PricingRule) :
  model rule <> PricingModel.TIERED ->
  model rule <> PricingModel.PER_HEAD_MIN ->
  model rule <> PricingModel.FLAT ->
  let res := calculateBill soc (Some rule) in
  calculatedAmount res = 0 /\
  details res = "Modelo desconhecido" /\
  status res = READY /\
  (forall soc' rule', status (calculateBill soc' rule') = MISSING_RULE <-> rule' = None).
Proof.
  intros H1 H2 H3 res. subst res. rewrite (switch_default soc rule H1 H2 H3).
  repeat split; try reflexivity.
  - rewrite calculateBill_status. now destruct rule'.
  - now intros ->.
Qed.

(** ** The reconciler *)

Lemma lookup_map {A B} (f : A -> B) (l : list A) (i : nat) :
  map f l !! i = f <$> (l !! i).
Proof. revert i. induction l as [|a l IH]; intros [|i]; simpl; auto. Qed.

(** The [forEach]/[push] loop builds the list that [map] builds. *)
Lemma reconcileData_map socList rulesList :
  reconcileData socList rulesList =
  map (fun soc => calculateBill soc (matched_rule rulesList soc)) socList.
Proof.
  unfold reconcileData, matched_rule, soc_key.
  set (g := fun soc => calculateBill soc (rulesMap rulesList !! cleanCnpj (soc_cnpj soc))).
  enough (G : forall acc,
    foldl (fun results soc => (results ++ [g soc])%list) acc socList
    = (acc ++ map g socList)%list) by apply (G []).
  induction socList as [|soc socs IH]; intros acc; simpl.
  - now rewrite app_nil_r.
  - rewrite IH, <- app_assoc. reflexivity.
Qed.

Lemma rulesMap_snoc l r : rulesMap (l ++ [r]) = <[rule_key r := r]> (rulesMap l).
Proof. unfold rulesMap. now rewrite foldl_app. Qed.

Lemma rulesMap_lookup_Some l k r :
  rulesMap l !! k = Some r -> In r l /\ rule_key r = k.
Proof.
  induction l as [|x l IH] using rev_ind.
  - unfold rulesMap. simpl. now rewrite lookup_empty.
  - rewrite rulesMap_snoc, lookup_insert. case_decide as Hk.
    + intros [= ->]. split; [apply in_app_iff; right; now left | exact Hk].
    + intros H. destruct (IH H) as [Hin Hkey].
      split; [apply in_app_iff; now left | exact Hkey].
Qed.

Lemma rulesMap_lookup_None l k :
  rulesMap l !! k = None <-> (forall r, In r l -> rule_key r <> k).
Proof.
  induction l as [|x l IH] using rev_ind.
  - unfold rulesMap. simpl. rewrite lookup_empty. split; [intros _ r []|auto].
  - rewrite rulesMap_snoc, lookup_insert. case_decide as Hk.
    + split; [discriminate|]. intros H. exfalso. apply (H x); [|exact Hk].
      apply in_app_iff. right. now left.
    + rewrite IH. split.
      * intros H r Hin. apply in_app_iff in Hin as [Hin|[<-|[]]]; auto.
      * intros H r Hin. apply H. apply in_app_iff. now left.
Qed.

(** The last rule carrying a key is the one the table keeps. *)
Lemma rulesMap_lookup_last l1 r l2 :
  (forall r', In r' l2 -> rule_key r' <> rule_key r) ->
  rulesMap (l1 ++ r :: l2) !! rule_key r = Some r.
Proof.
  induction l2 as [|x l2 IH] using rev_ind; intros Hl2.
  - rewrite rulesMap_snoc. apply lookup_insert_eq.
  - replace (l1 ++ r :: l2 ++ [x])%list with ((l1 ++ r :: l2) ++ [x])%list
      by now rewrite <- app_assoc.
    rewrite rulesMap_snoc, lookup_insert_ne.
    + apply IH. intros r' Hin. apply Hl2. apply in_app_iff. now left.
    + apply Hl2. apply in_app_iff. right. now left.
Qed.

Lemma rulesMap_lookup_iff l k r :
  rulesMap l !! k = Some r <-> last_with_key k l r.
Proof.
  split.
  - induction l as [|x l IH] using rev_ind.
    + unfold rulesMap. simpl. now rewrite lookup_empty.
    + rewrite rulesMap_snoc, lookup_insert. case_decide as Hk.
      * intros [= ->]. exists l, []. repeat split; [exact Hk|intros r' []].
      * intros Hl. destruct (IH Hl) as (before & after & -> & Hkey & Hafter).
        exists before, (after ++ [x])%list. split; [now rewrite <- app_assoc|].
        split; [exact Hkey|]. intros r' Hin.
        apply in_app_iff in Hin as [Hin|[<-|[]]]; auto.
  - intros (before & after & -> & <- & Hafter). now apply rulesMap_lookup_last.
Qed.

(** Without two rules on one key, a rule is found exactly by its key. *)
Lemma rulesMap_lookup_NoDup l k r :
  List.NoDup (map rule_key l) -> In r l ->
  (rulesMap l !! k = Some r <-> rule_key r = k).
Proof.
  intros Hnd Hin. split; [intros Hl; now apply rulesMap_lookup_Some in Hl|].
  intros <-. apply in_split in Hin as (before & after & ->).
  apply rulesMap_lookup_last. intros r' Hr' Heq.
  rewrite map_app in Hnd. simpl in Hnd. apply List.NoDup_remove_2 in Hnd.
  apply Hnd, in_app_iff. right. rewrite <- Heq. now apply in_map.
Qed.

(** C3. The reconciler returns one result per record, in the order of the
    records: the output is as long as the record list, its records are the
    input records in order (none merged, dropped or moved), and the result at
    index [i] is the bill of the record at index [i]. *)
Theorem reconcile_order_preserving
  (socList : list SocData) (rulesList : list PricingRule) :
  length (reconcileData socList rulesList) = length socList /\
  map socData (reconcileData socList rulesList) = socList /\
  (forall (i : nat) (soc : SocData),
     socList !! i = Some soc ->
     reconcileData socList rulesList !! i
     = Some (calculateBill soc (matched_rule rulesList soc))).
Proof.
  rewrite reconcileData_map. split; [|split].
  - apply length_map.
  - rewrite map_map. induction socList as [|soc socs IH]; simpl; [reflexivity|].
    now rewrite calculateBill_socData, IH.
  - intros i soc Hi. now rewrite lookup_map, Hi.
Qed.

(** C4. When several rules normalize to the same key, the records with that
    key are billed under the rule that comes last in the rule list: if no
    rule after [rule] carries its key, every record with that key is billed
    under [rule], whatever precedes it. *)
Theorem reconcile_last_rule_wins
  (before after : list PricingRule) (rule : PricingRule)
  (socList : list SocData) (i : nat) (soc : SocData) :
  (forall r', In r' after -> rule_key r' <> rule_key rule) ->
  socList !! i = Some soc ->
  soc_key soc = rule_key rule ->
  reconcileData socList (before ++ rule :: after) !! i
  = Some (calculateBill soc (Some rule)).
Proof.
  intros Hlast Hi Hkey.
  rewrite reconcileData_map, lookup_map, Hi. simpl.
  unfold matched_rule. now rewrite Hkey, rulesMap_lookup_last.
Qed.




(** C7. [cleanCnpj] keeps the decimal digits of its argument, in order, and
    nothing else; it is a total function and maps the empty string to the
    empty string.  The reconciler bills a record under a rule exactly when
    the two normalized identifiers are equal: the rule it uses is the last
    rule of the list with the record's key, it uses none exactly when no rule
    has that key, when no two rules share a key it uses a rule of the list
    exactly when that rule has the record's key, and one record meets one
    rule exactly when their keys agree.  A rule for "12.345.678/0001-90"
    matches a record for "12345678000190". *)
Theorem normalize_and_match :
  (forall s,
     list_ascii_of_string (cleanCnpj s)
     = List.filter (fun c => bool_decide (In c decimal_digits)) (list_ascii_of_string s)) /\
  cleanCnpj "" = "" /\
  (forall socList rulesList (i : nat) soc,
     socList !! i = Some soc ->
     exists res,
       reconcileData socList rulesList !! i = Some res /\
       (forall r, pricingRule res = Some r <-> last_with_key (soc_key soc) rulesList r) /\
       (pricingRule res = None <-> forall r, In r rulesList -> rule_key r <> soc_key soc) /\
       (List.NoDup (map rule_key rulesList) ->
        forall r, In r rulesList ->
                  (pricingRule res = Some r <-> rule_key r = soc_key soc))) /\
  (forall soc rule,
     map pricingRule (reconcileData [soc] [rule]) = [Some rule]
     <-> rule_key rule = soc_key soc) /\
  (forall soc rule,
     soc_cnpj soc = "12345678000190" -> rule_cnpj rule = "12.345.678/0001-90" ->
     reconcileData [soc] [rule] = [calculateBill soc (Some rule)]).
Proof.
  split; [|split; [reflexivity|split; [|split]]].
  - intros s. rewrite cleanCnpj_filter. apply filter_ext. intros c.
    destruct (is_digit c) eqn:E.
    + symmetry. apply bool_decide_eq_true. now apply is_digit_spec.
    + symmetry. apply bool_decide_eq_false. rewrite <- is_digit_spec. congruence.
  - intros socList rulesList i soc Hi.
    exists (calculateBill soc (matched_rule rulesList soc)).
    rewrite reconcileData_map, lookup_map, Hi, calculateBill_pricingRule.
    split; [reflexivity|split; [|split]].
    + intros r. apply rulesMap_lookup_iff.
    + apply rulesMap_lookup_None.
    + intros Hnd r Hin. now apply rulesMap_lookup_NoDup.
  - intros soc rule. rewrite reconcileData_map. simpl.
    rewrite calculateBill_pricingRule. unfold matched_rule, rulesMap. simpl.
    rewrite lookup_insert. fold (rule_key rule). case_decide as Hk.
    + tauto.
    + rewrite lookup_empty. split; [discriminate|tauto].
  - intros soc rule Hs Hr. rewrite reconcileData_map. simpl.
    unfold matched_rule, rulesMap, soc_key. simpl. rewrite Hs, Hr.
    reflexivity.
Qed.

(** ** The update handler *)

Lemma updateResults_map cnpj n prev :
  updateResults cnpj n prev = map (updateItem cnpj n) prev.
Proof. reflexivity. Qed.

Lemma updateItem_hit cnpj n item :
  soc_cnpj (socData item) = cnpj ->
  updateItem cnpj n item = calculateBill (with_active n (socData item)) (pricingRule item).
Proof. intros <-. unfold updateItem. now rewrite String.eqb_refl. Qed.

Lemma updateItem_miss cnpj n item :
  soc_cnpj (socData item) <> cnpj -> updateItem cnpj n item = item.
Proof. intros H. unfold updateItem. apply String.eqb_neq in H. now rewrite H. Qed.

Lemma updateItem_twice cnpj n item :
  updateItem cnpj n (updateItem cnpj n item) = updateItem cnpj n item.
Proof.
  destruct (string_dec (soc_cnpj (socData item)) cnpj) as [Heq|Hne].
  - rewrite (updateItem_hit cnpj n item Heq).
    rewrite updateItem_hit by now rewrite calculateBill_socData.
    now rewrite calculateBill_socData, calculateBill_pricingRule.
  - now rewrite !(updateItem_miss cnpj n item Hne).
Qed.

(** Rerunning the reconciler on one record and the rule a result holds. *)
Lemma reconcile_single soc held :
  (forall r, held = Some r -> rule_key r = soc_key soc) ->
  reconcileData [soc] (option_list held) = [calculateBill soc held].
Proof.
  intros Hm. rewrite reconcileData_map. simpl. f_equal. f_equal.
  unfold matched_rule. destruct held as [r|]; simpl.
  - unfold rulesMap. simpl. fold (rule_key r).
    rewrite (Hm r eq_refl). apply lookup_insert_eq.
  - apply lookup_empty.
Qed.

(** Every list the application can hold satisfies [rule_matches]. *)
Lemma reconcileData_rule_matches socList rulesList :
  Forall rule_matches (reconcileData socList rulesList).
Proof.
  apply List.Forall_forall. intros res Hin.
  rewrite reconcileData_map in Hin. apply in_map_iff in Hin as (soc & <- & _).
  intros r. rewrite calculateBill_pricingRule, calculateBill_socData.
  intros Hr. now apply rulesMap_lookup_Some in Hr.
Qed.

Lemma updateResults_rule_matches cnpj n prev :
  Forall rule_matches prev -> Forall rule_matches (updateResults cnpj n prev).
Proof.
  rewrite updateResults_map, !List.Forall_forall. intros H res Hin.
  apply in_map_iff in Hin as (item & <- & Hitem). specialize (H item Hitem).
  unfold updateItem. destruct (String.eqb _ _); [|exact H].
  intros r. rewrite calculateBill_pricingRule, calculateBill_socData. apply H.
Qed.

Lemma deleteResults_rule_matches cnpj prev :
  Forall rule_matches prev -> Forall rule_matches (deleteResults cnpj prev).
Proof.
  rewrite !List.Forall_forall. intros Hprev res Hin.
  apply filter_In in Hin as [Hin _]. now apply Hprev.
Qed.

Lemma reachable_rule_matches st : reachable st -> Forall rule_matches (results st).
Proof.
  induction 1 as [|st socList pricingData _ _|st cnpj _ IH|st cnpj n _ IH|st report _ IH];
    simpl.
  - constructor.
  - apply reconcileData_rule_matches.
  - now apply deleteResults_rule_matches.
  - now apply updateResults_rule_matches.
  - exact IH.
Qed.

(** Rerunning the reconciler on one record against any rule list under
    which that record is matched to the rule the result holds. *)
Lemma reconcile_rerun soc n held rulesList :
  matched_rule rulesList soc = held ->
  reconcileData [with_active n soc] rulesList = [calculateBill (with_active n soc) held].
Proof. intros <-. now rewrite reconcileData_map. Qed.

(** In a state the application reaches, an updated result is the
    reconciler's result for its record and its held rule. *)
Lemma reachable_update_rerun st cnpj n (i : nat) item :
  reachable st -> results st !! i = Some item -> soc_cnpj (socData item) = cnpj ->
  Some <$> reconcileData [with_active n (socData item)] (option_list (pricingRule item))
  = [results (handleUpdate cnpj n st) !! i].
Proof.
  intros Hst Hi Heq. rewrite reconcile_single.
  - unfold handleUpdate. cbn [results].
    now rewrite updateResults_map, lookup_map, Hi, <- (updateItem_hit cnpj).
  - apply reachable_rule_matches in Hst. rewrite List.Forall_forall in Hst.
    apply Hst. apply list_elem_of_In, list_elem_of_lookup. eauto.
Qed.

Lemma updateResults_lookup cnpj n prev (i : nat) item :
  prev !! i = Some item ->
  updateResults cnpj n prev !! i = Some (updateItem cnpj n item).
Proof. intros Hi. now rewrite updateResults_map, lookup_map, Hi. Qed.

(** C8. In every state the application reaches, the update keeps the length
    of the results; a result whose raw identifier equals the given one is
    replaced by the bill of its record with the new count under the rule it
    held, every other result is kept as it is; and the replaced result is
    what the reconciler returns for that record alone against the held rule
    alone, and against any rule list under which the record is matched to
    the held rule. *)
Theorem update_frame_and_rerun
  (st : AppState) (cnpj : string) (newCount : Q) (i : nat) (item : BillingResult) :
  reachable st ->
  results st !! i = Some item ->
  let out := results (handleUpdate cnpj newCount st) in
  let updated := calculateBill (with_active newCount (socData item)) (pricingRule item) in
  length out = length (results st) /\
  (soc_cnpj (socData item) <> cnpj -> out !! i = Some item) /\
  (soc_cnpj (socData item) = cnpj ->
   out !! i = Some updated /\
   reconcileData [with_active newCount (socData item)] (option_list (pricingRule item))
   = [updated] /\
   (forall rulesList,
      matched_rule rulesList (socData item) = pricingRule item ->
      reconcileData [with_active newCount (socData item)] rulesList = [updated])).
Proof.
  intros Hst Hi out updated. subst out updated. unfold handleUpdate. cbn [results].
  split; [rewrite updateResults_map; apply length_map|].
  rewrite (updateResults_lookup cnpj newCount _ i item Hi). split.
  - intros Hne. now rewrite updateItem_miss.
  - intros Heq. split; [now rewrite updateItem_hit|]. split.
    + apply reconcile_single.
      apply reachable_rule_matches in Hst. rewrite List.Forall_forall in Hst.
      apply Hst. apply list_elem_of_In, list_elem_of_lookup. eauto.
    + intros rulesList. apply reconcile_rerun.
Qed.

(** C9. Applying the update twice with the same identifier and count gives
    the list, and the state, that applying it once gives. *)
Theorem update_idempotent (cnpj : string) (newCount : Q) :
  (forall prev,
     updateResults cnpj newCount (updateResults cnpj newCount prev)
     = updateResults cnpj newCount prev) /\
  (forall st,
     handleUpdate cnpj newCount (handleUpdate cnpj newCount st)
     = handleUpdate cnpj newCount st).
Proof.
  assert (H : forall prev,
     updateResults cnpj newCount (updateResults cnpj newCount prev)
     = updateResults cnpj newCount prev).
  { intros prev. rewrite !updateResults_map, map_map.
    apply map_ext. intros item. apply updateItem_twice. }
  split; [exact H|]. intros st. unfold handleUpdate. simpl. now rewrite H.
Qed.

(** C10. A result of the pricing engine is READY exactly when a rule was
    given and MISSING_RULE exactly when none was, and then it holds no rule;
    it is never MISSING_SOC.  The same holds of every result of the
    reconciler, with the rule found for the record, and of every result the
    update recomputes, with the rule the result held; the update brings no
    MISSING_SOC into a list free of it. *)
Theorem status_tracks_rule :
  (forall soc rule,
     let res := calculateBill soc rule in
     (status res = READY <-> is_Some rule) /\
     (status res = MISSING_RULE <-> rule = None) /\
     (rule = None -> pricingRule res = None) /\
     status res <> MISSING_SOC) /\
  (forall socList rulesList res,
     In res (reconcileData socList rulesList) ->
     (status res = READY <-> is_Some (matched_rule rulesList (socData res))) /\
     (status res = MISSING_RULE <-> matched_rule rulesList (socData res) = None) /\
     (status res = MISSING_RULE -> pricingRule res = None) /\
     status res <> MISSING_SOC) /\
  (forall prev cnpj newCount (i : nat) item,
     prev !! i = Some item -> soc_cnpj (socData item) = cnpj ->
     exists res,
       updateResults cnpj newCount prev !! i = Some res /\
       (status res = READY <-> is_Some (pricingRule item)) /\
       (status res = MISSING_RULE <-> pricingRule item = None) /\
       (pricingRule item = None -> pricingRule res = None) /\
       status res <> MISSING_SOC) /\
  (forall prev cnpj newCount,
     Forall (fun item => status item <> MISSING_SOC) prev ->
     Forall (fun item => status item <> MISSING_SOC)
            (updateResults cnpj newCount prev)).
Proof.
  assert (Hprice : forall soc rule,
     (status (calculateBill soc rule) = READY <-> is_Some rule) /\
     (status (calculateBill soc rule) = MISSING_RULE <-> rule = None) /\
     (rule = None -> pricingRule (calculateBill soc rule) = None) /\
     status (calculateBill soc rule) <> MISSING_SOC).
  { intros soc rule. rewrite calculateBill_status, calculateBill_pricingRule.
    destruct rule as [r|]; repeat split; try discriminate; eauto.
    intros [x Hx]. discriminate Hx. }
  split; [exact Hprice|split; [|split]].
  - intros socList rulesList res Hin.
    rewrite reconcileData_map in Hin. apply in_map_iff in Hin as (soc & <- & _).
    rewrite calculateBill_socData.
    destruct (Hprice soc (matched_rule rulesList soc)) as (H1 & H2 & H3 & H4).
    repeat split; try apply H1; try apply H2; auto.
    intros H. apply H3, H2, H.
  - intros prev cnpj newCount i item Hi Heq.
    exists (calculateBill (with_active newCount (socData item)) (pricingRule item)).
    split; [|apply Hprice].
    now rewrite updateResults_map, lookup_map, Hi, <- (updateItem_hit cnpj).
  - intros prev cnpj newCount. rewrite updateResults_map, !List.Forall_forall.
    intros H res Hin. apply in_map_iff in Hin as (item & <- & Hitem).
    unfold updateItem. destruct (String.eqb _ _); [apply Hprice|now apply H].
Qed.

End Properties.

(** * The pricing formulas over binary64 *)

Section Binary64Properties.

Context {printer : Binary64.NumberToString}.

Local Open Scope float_scope.

(** ** Comparisons of binary64 values *)

Lemma SFcompare_antisym (x y : spec_float) :
  SFcompare y x = option_map CompOpp (SFcompare x y).
Proof.
  destruct x as [sx|sx| |sx mx ex], y as [sy|sy| |sy my ey]; simpl;
    try reflexivity;
    try (destruct sx; reflexivity); try (destruct sy; reflexivity);
    try (destruct sx, sy; reflexivity).
  destruct sx, sy; simpl; try reflexivity; f_equal;
    rewrite (Z.compare_antisym ex ey); destruct (ex ?= ey)%Z; simpl;
    try reflexivity.
  - rewrite CompOpp_involutive. exact (Pos.compare_cont_antisym my mx Eq).
  - rewrite (Pos.compare_cont_antisym mx my Eq). reflexivity.
Qed.

Lemma SFcompare_refl (x : spec_float) :
  x <> S754_nan -> SFcompare x x = Some Eq.
Proof.
  destruct x as [s|s| |s m e]; simpl; intros H; try reflexivity.
  - now destruct s.
  - now destruct H.
  - rewrite Z.compare_refl, Pos.compare_cont_refl. now destruct s.
Qed.

Lemma is_nan_false (a : float) : PrimFloat.is_nan a = false -> Prim2SF a <> S754_nan.
Proof.
  unfold PrimFloat.is_nan. rewrite FloatAxioms.eqb_spec. intros H Hnan. rewrite Hnan in H.
  discriminate H.
Qed.

Lemma eqb_leb (a b : float) : (a =? b) = true -> (a <=? b) = true.
Proof.
  rewrite FloatAxioms.eqb_spec, FloatAxioms.leb_spec. unfold SFeqb, SFleb.
  now destruct (SFcompare _ _) as [[]|].
Qed.

Lemma ltb_leb (a b : float) : (a <? b) = true -> (a <=? b) = true.
Proof.
  rewrite FloatAxioms.ltb_spec, FloatAxioms.leb_spec. unfold SFltb, SFleb.
  now destruct (SFcompare _ _) as [[]|].
Qed.

Lemma leb_refl (a : float) : PrimFloat.is_nan a = false -> (a <=? a) = true.
Proof.
  intros H. apply is_nan_false in H. rewrite FloatAxioms.leb_spec. unfold SFleb.
  now rewrite SFcompare_refl.
Qed.

Lemma not_ltb_leb (a b : float) :
  PrimFloat.is_nan a = false -> PrimFloat.is_nan b = false -> (a <? b) = false -> (b <=? a) = true.
Proof.
  intros Ha Hb. apply is_nan_false in Ha, Hb.
  rewrite FloatAxioms.ltb_spec, FloatAxioms.leb_spec. unfold SFltb, SFleb.
  rewrite (SFcompare_antisym (Prim2SF a) (Prim2SF b)).
  destruct (Prim2SF a) as [sa|sa| |sa ma ea] eqn:Ea; [| |now destruct Ha|];
    (destruct (Prim2SF b) as [sb|sb| |sb mb eb] eqn:Eb; [| |now destruct Hb|]);
    match goal with |- context [SFcompare ?x ?y] =>
      destruct (SFcompare x y) as [[]|] eqn:E end;
    simpl; try reflexivity; try discriminate.
Qed.

Lemma zeros_leb (a b : float) :
  PrimFloat.is_zero a = true -> PrimFloat.is_zero b = true -> (a <=? b) = true.
Proof.
  unfold PrimFloat.is_zero. rewrite !FloatAxioms.eqb_spec, FloatAxioms.leb_spec. unfold SFeqb, SFleb.
  change (Prim2SF PrimFloat.zero) with (S754_zero false).
  destruct (Prim2SF a) as [sa|sa| |sa ma ea]; simpl;
    try discriminate; try (destruct sa; discriminate);
    destruct (Prim2SF b) as [sb|sb| |sb mb eb]; simpl;
    try discriminate; try (destruct sb; discriminate).
  reflexivity.
Qed.

(** ** The two JavaScript primitives *)

(** [x || 0]: the value when it is present and truthy, [0] otherwise. *)
Lemma or_zero_spec (x : option float) :
  (x = None -> Binary64.or_zero x = 0) /\
  (forall f, x = Some f -> Binary64.falsy f = true -> Binary64.or_zero x = 0) /\
  (forall f, x = Some f -> Binary64.falsy f = false -> Binary64.or_zero x = f).
Proof.
  split; [now intros ->|]. split; intros f -> Hf; simpl; now rewrite Hf.
Qed.

(** [Math.max] of two numbers is one of them and neither is above it. *)
Lemma Math_max_spec (a b : float) :
  PrimFloat.is_nan a = false -> PrimFloat.is_nan b = false ->
  (Binary64.Math_max a b = a \/ Binary64.Math_max a b = b) /\
  (a <=? Binary64.Math_max a b) = true /\
  (b <=? Binary64.Math_max a b) = true.
Proof.
  intros Ha Hb. unfold Binary64.Math_max. rewrite Ha, Hb. simpl.
  destruct (a <? b) eqn:Elt.
  - split; [now right|]. split; [now apply ltb_leb|now apply leb_refl].
  - destruct (PrimFloat.is_zero a) eqn:Za, (PrimFloat.is_zero b) eqn:Zb, (PrimFloat.get_sign a) eqn:Sa; simpl;
      try (split; [now left|]; split; [now apply leb_refl|now apply not_ltb_leb]).
    split; [now right|]. split; [now apply zeros_leb|now apply leb_refl].
Qed.

Lemma or_zero_not_nan (x : option float) :
  PrimFloat.is_nan (Binary64.or_zero x) = false.
Proof.
  destruct x as [f|]; simpl; [|reflexivity].
  unfold Binary64.falsy. destruct (PrimFloat.is_nan f) eqn:E; simpl; [reflexivity|].
  destruct (PrimFloat.is_zero f); [reflexivity|exact E].
Qed.

(** ** The two formulas *)

(** C1. Under a TIERED rule, with the included count and the excess rate
    read as [x || 0], the amount is the base price when the active count is
    at most the included count, the equal case included, and otherwise the
    base price plus the product of the excess count and the excess rate,
    each operation being the binary64 one of the program. *)
Theorem tiered_amount (soc : Binary64.SocData) (rule : Binary64.PricingRule) :
  Binary64.model rule = PricingModel.TIERED ->
  let included := Binary64.or_zero (Binary64.includedEmployees rule) in
  let excessRate := Binary64.or_zero (Binary64.excessPrice rule) in
  let count := Binary64.activeEmployees soc in
  let amount := Binary64.calculatedAmount (Binary64.calculateBill soc (Some rule)) in
  ((count <=? included) = true -> amount = Binary64.basePrice rule) /\
  ((count =? included) = true -> amount = Binary64.basePrice rule) /\
  ((count <=? included) = false ->
   amount = Binary64.basePrice rule + (count - included) * excessRate).
Proof.
  intros Hm included excessRate count amount.
  assert (Hamount : amount =
            if count <=? included then Binary64.basePrice rule
            else Binary64.basePrice rule + (count - included) * excessRate).
  { subst amount count included excessRate. unfold Binary64.calculateBill.
    rewrite Hm. cbn. now destruct (_ <=? _). }
  rewrite Hamount. split; [|split].
  - now intros ->.
  - intros Heq. now rewrite (eqb_leb _ _ Heq).
  - now intros ->.
Qed.

(** C2. Under a PER_HEAD_MIN rule, with the minimum read as [x || 0], the
    amount is [Math.max] of the active count and the minimum, times
    [basePrice], which this model reads as the price per head; the product is
    the binary64 one of the program.  When the count is a number, that
    maximum is the count or the minimum, and neither is above it. *)
Theorem per_head_min_amount (soc : Binary64.SocData) (rule : Binary64.PricingRule) :
  Binary64.model rule = PricingModel.PER_HEAD_MIN ->
  let minimum := Binary64.or_zero (Binary64.minEmployees rule) in
  let count := Binary64.activeEmployees soc in
  let billable := Binary64.Math_max count minimum in
  Binary64.calculatedAmount (Binary64.calculateBill soc (Some rule))
  = billable * Binary64.basePrice rule /\
  (PrimFloat.is_nan count = false ->
   (billable = count \/ billable = minimum) /\
   (count <=? billable) = true /\ (minimum <=? billable) = true).
Proof.
  intros Hm minimum count billable. split.
  - unfold Binary64.calculateBill. now rewrite Hm.
  - intros Hc. apply Math_max_spec; [exact Hc|apply or_zero_not_nan].
Qed.

End Binary64Properties.

(** * Further properties of the service *)

Section ServiceProperties.

Context {printer : NumberToString}.

Local Open Scope Q_scope.

(** ** Normalization *)

Lemma cleanCnpj_cons (c : ascii) (s : string) :
  cleanCnpj (String c s)
  = if is_digit c then String c (cleanCnpj s) else cleanCnpj s.
Proof. unfold cleanCnpj. simpl. now destruct (is_digit c). Qed.

Lemma cleanCnpj_app (a b : string) :
  cleanCnpj (a ++ b) = cleanCnpj a ++ cleanCnpj b.
Proof.
  induction a as [|c a IH]; [reflexivity|].
  change (String c a ++ b)%string with (String c (a ++ b)).
  rewrite !cleanCnpj_cons, IH. now destruct (is_digit c).
Qed.

Lemma cleanCnpj_no_digit (s : string) :
  (forall c, In c (list_ascii_of_string s) -> is_digit c = false) ->
  cleanCnpj s = "".
Proof.
  induction s as [|c s IH]; intros H; [reflexivity|].
  rewrite cleanCnpj_cons, (H c) by now left.
  apply IH. intros c' Hc'. apply H. now right.
Qed.

(** X1. Normalizing is idempotent, leaves a digits-only identifier as it
    is, and never lengthens its argument. *)
Theorem cleanCnpj_normal_form (s : string) :
  cleanCnpj (cleanCnpj s) = cleanCnpj s /\
  ((forall c, In c (list_ascii_of_string s) -> is_digit c = true) -> cleanCnpj s = s) /\
  (String.length (cleanCnpj s) <= String.length s)%nat.
Proof.
  split; [|split].
  - induction s as [|c s IH]; [reflexivity|].
    rewrite cleanCnpj_cons. destruct (is_digit c) eqn:E; [|exact IH].
    now rewrite cleanCnpj_cons, E, IH.
  - induction s as [|c s IH]; intros H; [reflexivity|].
    rewrite cleanCnpj_cons, (H c) by now left.
    f_equal. apply IH. intros c' Hc'. apply H. now right.
  - induction s as [|c s IH]; [reflexivity|].
    rewrite cleanCnpj_cons. destruct (is_digit c); simpl; lia.
Qed.

(** X2. Punctuation does not reach the key: text without digits may be put
    anywhere in an identifier without changing what it normalizes to. *)
Theorem cleanCnpj_ignores_separators (a sep b : string) :
  (forall c, In c (list_ascii_of_string sep) -> is_digit c = false) ->
  cleanCnpj (a ++ sep ++ b) = cleanCnpj (a ++ b).
Proof.
  intros H. now rewrite !cleanCnpj_app, (cleanCnpj_no_digit sep H).
Qed.

(** ** The pricing engine *)



Lemma getRuleLabel_dash (m : string) :
  getRuleLabel (Some m) = "-" <->
  m <> PricingModel.TIERED /\ m <> PricingModel.PER_HEAD_MIN /\ m <> PricingModel.FLAT.
Proof.
  unfold getRuleLabel, PricingModel.TIERED, PricingModel.PER_HEAD_MIN, PricingModel.FLAT.
  destruct (String.eqb_spec m "TIERED") as [Ht|Ht]; [split; [discriminate|tauto]|].
  destruct (String.eqb_spec m "PER_HEAD_MIN") as [Hp|Hp]; [split; [discriminate|tauto]|].
  destruct (String.eqb_spec m "FLAT") as [Hf|Hf]; [split; [discriminate|tauto]|].
  tauto.
Qed.

(** X6. The label shown for a bill is "-" exactly when the bill had no rule
    or a rule of an unknown model, and such a bill is always 0. *)
Theorem rule_label_dash (soc : SocData) (rule : option PricingRule) :
  let res := calculateBill soc rule in
  (getRuleLabel (model <$> pricingRule res) = "-" <->
   rule = None \/
   exists r, rule = Some r /\ model r <> PricingModel.TIERED /\
             model r <> PricingModel.PER_HEAD_MIN /\ model r <> PricingModel.FLAT) /\
  (getRuleLabel (model <$> pricingRule res) = "-" -> calculatedAmount res = 0).
Proof.
  cbv zeta. rewrite calculateBill_pricingRule.
  destruct rule as [r|].
  - change (model <$> Some r) with (Some (model r)). rewrite getRuleLabel_dash.
    split.
    + split; [intros H; right; now exists r|].
      intros [H|(r' & [= <-] & H)]; [discriminate H|exact H].
    + intros (Ht & Hp & Hf). now rewrite (switch_default soc r Ht Hp Hf).
  - split; [split; [now left|reflexivity]|reflexivity].
Qed.

(** ** The reconciler *)

Lemma rulesMap_app l1 l2 k :
  rulesMap (l1 ++ l2) !! k
  = match rulesMap l2 !! k with Some r => Some r | None => rulesMap l1 !! k end.
Proof.
  induction l2 as [|x l2 IH] using rev_ind.
  - rewrite app_nil_r. unfold rulesMap at 2. simpl. now rewrite lookup_empty.
  - rewrite app_assoc, !rulesMap_snoc, !lookup_insert.
    case_decide; [reflexivity|exact IH].
Qed.

Lemma reconcileData_ext socList rules rules' :
  (forall soc, In soc socList -> matched_rule rules soc = matched_rule rules' soc) ->
  reconcileData socList rules = reconcileData socList rules'.
Proof.
  intros H. rewrite !reconcileData_map. apply map_ext_in.
  intros soc Hin. now rewrite (H soc Hin).
Qed.

(** X7. Records are billed independently of one another: the bills of a
    concatenation are the bills of its parts, one after the other. *)
Theorem reconcileData_app (socs1 socs2 : list SocData) (rulesList : list PricingRule) :
  reconcileData (socs1 ++ socs2) rulesList
  = (reconcileData socs1 rulesList ++ reconcileData socs2 rulesList)%list.
Proof. rewrite !reconcileData_map. apply map_app. Qed.

(** X8. When no two rules share a normalized identifier, the order of the
    rule list does not matter. *)
Theorem reconcile_rule_order_irrelevant
  (socList : list SocData) (rules rules' : list PricingRule) :
  Permutation rules rules' ->
  List.NoDup (map rule_key rules) ->
  reconcileData socList rules = reconcileData socList rules'.
Proof.
  intros Hperm Hnd. apply reconcileData_ext. intros soc _. unfold matched_rule.
  assert (Hnd' : List.NoDup (map rule_key rules')).
  { eapply Permutation_NoDup; [|exact Hnd]. now apply Permutation_map. }
  destruct (rulesMap rules !! soc_key soc) as [r|] eqn:E.
  - symmetry. apply rulesMap_lookup_Some in E as [Hin Hkey].
    apply rulesMap_lookup_NoDup; [exact Hnd'| |exact Hkey].
    now apply (Permutation_in _ Hperm).
  - symmetry. apply rulesMap_lookup_None. intros r Hin.
    apply (proj1 (rulesMap_lookup_None rules (soc_key soc)) E).
    apply (Permutation_in _ (Permutation_sym Hperm)), Hin.
Qed.

(** X9. A rule can be dropped from the list without changing any bill when
    no record has its normalized identifier, or when a later rule has it. *)
Theorem reconcile_drop_rule
  (socList : list SocData) (before after : list PricingRule) (rule : PricingRule) :
  (forall soc, In soc socList -> soc_key soc <> rule_key rule) \/
  (exists later, In later after /\ rule_key later = rule_key rule) ->
  reconcileData socList (before ++ rule :: after)
  = reconcileData socList (before ++ after).
Proof.
  intros H. apply reconcileData_ext. intros soc Hin. unfold matched_rule.
  rewrite !rulesMap_app.
  change (rule :: after) with ([rule] ++ after)%list. rewrite rulesMap_app.
  destruct (rulesMap after !! soc_key soc) as [r|] eqn:E; [reflexivity|].
  assert (Hne : rule_key rule <> soc_key soc).
  { destruct H as [H|(later & Hlater & Hkey)].
    - intros Heq. now apply (H soc Hin).
    - rewrite <- Hkey. now apply (proj1 (rulesMap_lookup_None after (soc_key soc)) E). }
  unfold rulesMap at 1. simpl. fold (rule_key rule).
  now rewrite lookup_insert_ne, lookup_empty.
Qed.

End ServiceProperties.

(** * Properties of the application state *)

Section StateProperties.

Context {printer : NumberToString}.

Local Open Scope Q_scope.

Lemma updateItem_cnpj cnpj n item :
  soc_cnpj (socData (updateItem cnpj n item)) = soc_cnpj (socData item).
Proof.
  unfold updateItem. destruct (String.eqb _ _); [|reflexivity].
  now rewrite calculateBill_socData.
Qed.

Lemma updateItem_overwrite cnpj n1 n2 item :
  updateItem cnpj n2 (updateItem cnpj n1 item) = updateItem cnpj n2 item.
Proof.
  destruct (string_dec (soc_cnpj (socData item)) cnpj) as [Heq|Hne].
  - rewrite (updateItem_hit cnpj n1 item Heq), (updateItem_hit cnpj n2 item Heq).
    rewrite updateItem_hit by now rewrite calculateBill_socData.
    now rewrite calculateBill_socData, calculateBill_pricingRule.
  - now rewrite !(updateItem_miss cnpj _ item Hne).
Qed.

Lemma updateItem_commute c1 c2 n1 n2 item :
  c1 <> c2 ->
  updateItem c1 n1 (updateItem c2 n2 item) = updateItem c2 n2 (updateItem c1 n1 item).
Proof.
  intros Hne.
  destruct (string_dec (soc_cnpj (socData item)) c1) as [H1|H1].
  - assert (H2 : soc_cnpj (socData item) <> c2) by congruence.
    rewrite (updateItem_miss c2 n2 item H2).
    symmetry. apply updateItem_miss. now rewrite updateItem_cnpj.
  - rewrite (updateItem_miss c1 n1 item H1).
    apply updateItem_miss. now rewrite updateItem_cnpj.
Qed.

(** X10. Of two updates of one identifier the later one decides: the
    earlier count leaves no trace. *)
Theorem update_overwrites (cnpj : string) (n1 n2 : Q) (prev : list BillingResult) :
  updateResults cnpj n2 (updateResults cnpj n1 prev) = updateResults cnpj n2 prev.
Proof.
  rewrite !updateResults_map, map_map. apply map_ext.
  intros item. apply updateItem_overwrite.
Qed.

(** X11. Updates of different identifiers commute. *)
Theorem update_commutes (c1 c2 : string) (n1 n2 : Q) (prev : list BillingResult) :
  c1 <> c2 ->
  updateResults c1 n1 (updateResults c2 n2 prev)
  = updateResults c2 n2 (updateResults c1 n1 prev).
Proof.
  intros Hne. rewrite !updateResults_map, !map_map. apply map_ext.
  intros item. now apply updateItem_commute.
Qed.

(** X12. An update changes counts and bills only: the identifiers, the
    names and the held rules of the list stay as they were, row by row. *)
Theorem update_keeps_identity (cnpj : string) (n : Q) (prev : list BillingResult) :
  map (fun r => (soc_cnpj (socData r), companyName (socData r), pricingRule r))
      (updateResults cnpj n prev)
  = map (fun r => (soc_cnpj (socData r), companyName (socData r), pricingRule r)) prev.
Proof.
  rewrite updateResults_map, map_map. apply map_ext. intros item.
  unfold updateItem. destruct (String.eqb _ _); [|reflexivity].
  now rewrite calculateBill_socData, calculateBill_pricingRule.
Qed.

Lemma deleteResults_In cnpj prev item :
  In item (deleteResults cnpj prev) <->
  In item prev /\ soc_cnpj (socData item) <> cnpj.
Proof.
  unfold deleteResults. rewrite filter_In, negb_true_iff.
  now rewrite String.eqb_neq.
Qed.

Lemma deleteResults_updateResults c1 c2 n prev :
  deleteResults c1 (updateResults c2 n prev)
  = updateResults c2 n (deleteResults c1 prev).
Proof.
  rewrite !updateResults_map. unfold deleteResults.
  induction prev as [|item prev IH]; [reflexivity|].
  simpl. rewrite updateItem_cnpj, IH.
  now destruct (String.eqb (soc_cnpj (socData item)) c1).
Qed.

(** X13. Deleting and updating commute, whatever the two identifiers. *)
Theorem delete_update_commute (c1 c2 : string) (n : Q) (prev : list BillingResult) :
  deleteResults c1 (updateResults c2 n prev)
  = updateResults c2 n (deleteResults c1 prev).
Proof. apply deleteResults_updateResults. Qed.

(** X14. Deleting an identifier removes every row that carries it, so an
    update of that identifier before or after the deletion changes nothing,
    and deleting twice is deleting once. *)
Theorem delete_absorbs_update (cnpj : string) (n : Q) (prev : list BillingResult) :
  Forall (fun item => soc_cnpj (socData item) <> cnpj) (deleteResults cnpj prev) /\
  updateResults cnpj n (deleteResults cnpj prev) = deleteResults cnpj prev /\
  deleteResults cnpj (updateResults cnpj n prev) = deleteResults cnpj prev /\
  deleteResults cnpj (deleteResults cnpj prev) = deleteResults cnpj prev.
Proof.
  assert (Hall : Forall (fun item => soc_cnpj (socData item) <> cnpj)
                        (deleteResults cnpj prev)).
  { apply List.Forall_forall. intros item Hin. now apply deleteResults_In in Hin. }
  assert (Hupd : updateResults cnpj n (deleteResults cnpj prev) = deleteResults cnpj prev).
  { rewrite updateResults_map. rewrite <- (map_id (deleteResults cnpj prev)) at 2.
    apply map_ext_in. intros item Hin. apply updateItem_miss.
    now apply deleteResults_In in Hin. }
  repeat split; [exact Hall|exact Hupd| |].
  - now rewrite deleteResults_updateResults, Hupd.
  - clear Hall Hupd. unfold deleteResults.
    induction prev as [|item prev IH]; [reflexivity|].
    simpl. destruct (String.eqb (soc_cnpj (socData item)) cnpj) eqn:E; simpl;
      [exact IH|now rewrite E, IH].
Qed.

(** ** What every reachable state satisfies *)

Lemma calculateBill_own_bill soc rule : own_bill (calculateBill soc rule).
Proof.
  unfold own_bill. now rewrite calculateBill_socData, calculateBill_pricingRule.
Qed.

Lemma reachable_own_bill st : reachable st -> Forall own_bill (results st).
Proof.
  induction 1 as [|st socList pricingData _ _|st cnpj _ IH|st cnpj n _ IH|st report _ IH];
    simpl.
  - constructor.
  - rewrite reconcileData_map. apply List.Forall_forall. intros res Hin.
    apply in_map_iff in Hin as (soc & <- & _). apply calculateBill_own_bill.
  - rewrite List.Forall_forall in IH. apply List.Forall_forall. intros res Hin.
    apply deleteResults_In in Hin as [Hin _]. now apply IH.
  - rewrite List.Forall_forall in IH. apply List.Forall_forall. intros res Hin.
    rewrite updateResults_map in Hin. apply in_map_iff in Hin as (item & <- & Hitem).
    unfold updateItem. destruct (String.eqb _ _); [|now apply IH].
    apply calculateBill_own_bill.
  - exact IH.
Qed.

(** X15. In every state the application reaches, each result is the bill
    of the record and the rule it holds; so it is READY exactly when it
    holds a rule, it is never MISSING_SOC, and when it is not READY its
    amount is 0. *)
Theorem reachable_results_consistent (st : AppState) (item : BillingResult) :
  reachable st -> In item (results st) ->
  own_bill item /\
  (status item = READY <-> is_Some (pricingRule item)) /\
  status item <> MISSING_SOC /\
  (status item <> READY -> calculatedAmount item = 0 /\ pricingRule item = None).
Proof.
  intros Hst Hin. apply reachable_own_bill in Hst.
  rewrite List.Forall_forall in Hst. specialize (Hst item Hin).
  split; [exact Hst|]. rewrite Hst, calculateBill_status, calculateBill_pricingRule.
  destruct (pricingRule item) as [r|]; simpl.
  - split; [split; eauto|]. split; [discriminate|]. intros Hc. now destruct Hc.
  - split; [split; [discriminate|intros [x Hx]; discriminate Hx]|].
    split; [discriminate|]. intros _. split; reflexivity.
Qed.

Lemma updateResults_current_count prev cnpj n :
  Forall own_bill prev ->
  (forall item, In item prev -> soc_cnpj (socData item) = cnpj ->
                activeEmployees (socData item) = n) ->
  updateResults cnpj n prev = prev.
Proof.
  intros Hown Hn. rewrite List.Forall_forall in Hown.
  rewrite updateResults_map. rewrite <- (map_id prev) at 2.
  apply map_ext_in. intros item Hin. unfold updateItem.
  destruct (String.eqb_spec (soc_cnpj (socData item)) cnpj) as [Heq|Hne]; [|reflexivity].
  rewrite (Hown item Hin) at 3. f_equal.
  specialize (Hn item Hin Heq). destruct (socData item) as [c nm a].
  simpl in *. now subst.
Qed.

(** X16. In a reachable state, an update that gives an identifier the
    count its rows already have leaves the list as it is. *)
Theorem update_current_count_noop (st : AppState) (cnpj : string) (n : Q) :
  reachable st ->
  (forall item, In item (results st) -> soc_cnpj (socData item) = cnpj ->
                activeEmployees (socData item) = n) ->
  updateResults cnpj n (results st) = results st.
Proof.
  intros Hst Hn. apply updateResults_current_count; [|exact Hn].
  now apply reachable_own_bill.
Qed.

(** X17. Opening the editor on a row and saving at once, in a reachable
    state where the rows sharing the identifier share the count: the list is
    unchanged while the stored report is dropped; on a row with the empty
    identifier saving does nothing and the editor stays open. *)
Theorem save_unchanged_edit (st : AppState) (item : BillingResult) (ed : EditState) :
  reachable st -> In item (results st) ->
  (forall other, In other (results st) ->
                 soc_cnpj (socData other) = soc_cnpj (socData item) ->
                 activeEmployees (socData other) = activeEmployees (socData item)) ->
  (soc_cnpj (socData item) <> "" ->
   saveEditing (startEditing item ed) st
   = ({| editingCnpj := None; editValue := activeEmployees (socData item) |},
      {| results := results st; analysis := None |})) /\
  (soc_cnpj (socData item) = "" ->
   saveEditing (startEditing item ed) st = (startEditing item ed, st)).
Proof.
  intros Hst Hin Hsame. unfold saveEditing, startEditing. simpl. split.
  - intros Hne. destruct (soc_cnpj (socData item)) as [|c rest] eqn:E; [easy|].
    unfold handleUpdate. rewrite <- E.
    rewrite updateResults_current_count;
      [reflexivity|now apply reachable_own_bill|].
    intros other Hother Hc. apply Hsame; [exact Hother|now rewrite <- E].
  - intros ->. reflexivity.
Qed.

(** ** The dashboard figures *)

Lemma foldl_amounts (l : list BillingResult) (a : Q) :
  foldl (fun acc curr => acc + calculatedAmount curr) a l
  == a + foldl (fun acc curr => acc + calculatedAmount curr) 0 l.
Proof.
  revert a. induction l as [|x l IH]; intros a; simpl; [lra|].
  rewrite (IH (a + calculatedAmount x)), (IH (0 + calculatedAmount x)). lra.
Qed.

Lemma totalRevenue_cons x l :
  totalRevenue (x :: l) == calculatedAmount x + totalRevenue l.
Proof. unfold totalRevenue. simpl. rewrite foldl_amounts. lra. Qed.


Lemma totalRev_totalRevenue l :
  Forall (fun r => is_ready (status r) = false -> calculatedAmount r == 0) l ->
  totalRev l == totalRevenue l.
Proof.
  unfold totalRev, successfulBills.
  induction 1 as [|x l Hx _ IH]; [reflexivity|].
  rewrite totalRevenue_cons. simpl. destruct (is_ready (status x)) eqn:E.
  - fold (totalRevenue (x :: List.filter (fun r => is_ready (status r)) l)).
    rewrite totalRevenue_cons. unfold totalRevenue at 1. now rewrite IH.
  - rewrite IH, (Hx eq_refl). lra.
Qed.

(** X18. The two counters of the dashboard split the list: the processed
    and the failed rows add up to all rows. *)
Theorem counters_partition (l : list BillingResult) :
  (readyCount l + errorCount l = length l)%nat.
Proof.
  unfold readyCount, errorCount.
  induction l as [|x l IH]; [reflexivity|].
  simpl. destruct (is_ready (status x)); simpl; lia.
Qed.

(** X19. In every reachable state the revenue shown on the dashboard, a
    sum over all rows, equals the total quoted to the report, a sum over the
    READY rows only. *)
Theorem revenue_agrees_with_report (st : AppState) :
  reachable st -> totalRevenue (results st) == totalRev (results st).
Proof.
  intros Hst. symmetry. apply totalRev_totalRevenue.
  apply reachable_own_bill in Hst. rewrite List.Forall_forall in Hst.
  apply List.Forall_forall. intros item Hin Hnr.
  rewrite (Hst item Hin) in Hnr |- *. rewrite calculateBill_status in Hnr.
  destruct (pricingRule item); [discriminate Hnr|reflexivity].
Qed.


(** X21. After a reconciliation the processed counter is the number of
    records for which a rule was found, and the failed counter the number of
    records for which none was. *)
Theorem counters_after_reconcile (socList : list SocData) (rulesList : list PricingRule) :
  readyCount (reconcileData socList rulesList)
  = length (List.filter (fun soc => bool_decide (is_Some (matched_rule rulesList soc))) socList) /\
  errorCount (reconcileData socList rulesList)
  = length (List.filter (fun soc => bool_decide (matched_rule rulesList soc = None)) socList).
Proof.
  rewrite reconcileData_map. unfold readyCount, errorCount.
  induction socList as [|soc socs [IH1 IH2]]; [split; reflexivity|].
  simpl. rewrite calculateBill_status.
  destruct (matched_rule rulesList soc) as [r|]; simpl; now rewrite IH1, IH2.
Qed.

Lemma reconcileData_no_rules socList :
  reconcileData socList [] = map (fun soc => calculateBill soc None) socList.
Proof.
  rewrite reconcileData_map. apply map_ext. intros soc.
  unfold matched_rule, rulesMap. simpl. now rewrite lookup_empty.
Qed.

(** X22. With no rules at all every record comes back MISSING_RULE: nothing
    is processed and the revenue is 0. *)
Theorem reconcile_without_rules (socList : list SocData) :
  reconcileData socList [] = map (fun soc => calculateBill soc None) socList /\
  readyCount (reconcileData socList []) = 0%nat /\
  errorCount (reconcileData socList []) = length socList /\
  totalRevenue (reconcileData socList []) == 0.
Proof.
  rewrite reconcileData_no_rules. split; [reflexivity|].
  unfold readyCount, errorCount.
  induction socList as [|soc socs (IH1 & IH2 & IH3)]; [repeat split; reflexivity|].
  split; [exact IH1|split].
  - simpl. f_equal. exact IH2.
  - change (map (fun s => calculateBill s None) (soc :: socs))
      with (calculateBill soc None :: map (fun s => calculateBill s None) socs).
    rewrite totalRevenue_cons, IH3. simpl. lra.
Qed.

(** X23. The report quotes the first 30 READY rows: as many rows as there
    are READY results, capped at 30, and all of them when there are at most
    30. *)
Theorem promptSample_size (l : list BillingResult) :
  length (promptSample l) = Nat.min 30 (readyCount l) /\
  ((readyCount l <= 30)%nat -> promptSample l = summaryData l) /\
  (forall row, In row (promptSample l) ->
     exists b, In b l /\ status b = READY /\
               company row = companyName (socData b) /\ amount row = calculatedAmount b).
Proof.
  unfold promptSample, summaryData, readyCount, successfulBills. split; [|split].
  - now rewrite length_firstn, length_map.
  - intros H. apply firstn_all2. now rewrite length_map.
  - intros row Hin.
    match type of Hin with In _ (firstn _ ?l) =>
      assert (Hall : In row l)
        by (rewrite <- (firstn_skipn 30 l); apply in_or_app; now left)
    end.
    apply in_map_iff in Hall as (b & <- & Hb). apply filter_In in Hb as [Hb Hr].
    exists b. repeat split; [exact Hb|]. now destruct (status b).
Qed.

End StateProperties.

(** * Properties of the results table *)

Section TableProperties.

Context {strings : StringOps}.

Local Open Scope Q_scope.

(** ** Row expansion and sort configuration *)

(** X24. Toggling a row flips whether it is expanded and touches no other
    row; toggling it twice restores the set. *)
Theorem toggleRow_flips (cnpj : string) (prev : gset string) :
  (cnpj ∈ toggleRow cnpj prev <-> cnpj ∉ prev) /\
  (forall other, other <> cnpj -> (other ∈ toggleRow cnpj prev <-> other ∈ prev)) /\
  toggleRow cnpj (toggleRow cnpj prev) = prev.
Proof.
  unfold toggleRow. destruct (decide (cnpj ∈ prev)) as [Hin|Hout].
  - split; [|split].
    + rewrite elem_of_difference, elem_of_singleton. tauto.
    + intros other Hne. rewrite elem_of_difference, elem_of_singleton. tauto.
    + rewrite decide_False
        by (rewrite elem_of_difference, elem_of_singleton; tauto).
      apply set_eq. intros x.
      rewrite elem_of_union, elem_of_difference, elem_of_singleton.
      destruct (decide (x = cnpj)) as [->|Hx]; tauto.
  - split; [|split].
    + rewrite elem_of_union, elem_of_singleton. tauto.
    + intros other Hne. rewrite elem_of_union, elem_of_singleton. tauto.
    + rewrite decide_True by (rewrite elem_of_union, elem_of_singleton; tauto).
      apply set_eq. intros x.
      rewrite elem_of_difference, elem_of_union, elem_of_singleton.
      split; [tauto|]. intros Hx. split; [tauto|]. intros ->. tauto.
Qed.

(** X25. A click on a column header sorts by that column, ascending unless
    the column was already sorted ascending; further clicks on the same
    header alternate the direction. *)
Theorem handleSort_cycle (key : SortKey) (current : SortConfig) :
  sort_key (handleSort key current) = key /\
  (sort_key current <> key -> direction (handleSort key current) = asc) /\
  (sort_key current = key ->
   direction (handleSort key current) <> direction current) /\
  direction (handleSort key (handleSort key current))
  <> direction (handleSort key current) /\
  handleSort key (handleSort key (handleSort key current)) = handleSort key current.
Proof.
  destruct current as [k d]. destruct key, k, d; simpl; repeat split; congruence.
Qed.

(** ** Sorting *)

Lemma sort_insert_perm {A} (cmp : A -> A -> Z) x l :
  Permutation (sort_insert cmp x l) (x :: l).
Proof.
  induction l as [|y l IH]; simpl; [reflexivity|].
  destruct (cmp x y <=? 0)%Z; [reflexivity|].
  rewrite IH. apply perm_swap.
Qed.

Lemma js_sort_perm {A} (cmp : A -> A -> Z) l : Permutation (js_sort cmp l) l.
Proof.
  induction l as [|x l IH]; simpl; [reflexivity|].
  rewrite sort_insert_perm. now constructor.
Qed.

(** Sorting on a two-valued key puts one group before the other and keeps
    the order within each. *)
Lemma js_sort_two_groups {A} (cmp : A -> A -> Z) (g : A -> bool) l :
  (forall x y, (cmp x y <=? 0)%Z = negb (g x) || g y) ->
  js_sort cmp l = (List.filter (fun x => negb (g x)) l ++ List.filter g l)%list.
Proof.
  intros Hcmp.
  assert (Hins : forall x front back,
    (forall a, In a front -> g a = false) ->
    (forall b, In b back -> g b = true) ->
    sort_insert cmp x (front ++ back)
    = if g x then (front ++ x :: back)%list else (x :: front ++ back)%list).
  { intros x front back Hfront Hback.
    induction front as [|a front IH]; simpl.
    - destruct back as [|b back]; simpl; [now destruct (g x)|].
      rewrite Hcmp, (Hback b) by now left. rewrite orb_true_r. now destruct (g x).
    - rewrite Hcmp, (Hfront a) by now left. rewrite orb_false_r.
      destruct (g x) eqn:Gx; simpl; [|reflexivity].
      rewrite IH by (intros a' Ha'; apply Hfront; now right).
      try rewrite Gx. reflexivity. }
  induction l as [|x l IH]; [reflexivity|].
  cbn [js_sort]. rewrite IH, Hins.
  - cbn [List.filter]. now destruct (g x).
  - intros a Ha. apply filter_In in Ha as [_ Ha]. now apply negb_true_iff.
  - intros b Hb. now apply filter_In in Hb.
Qed.

Lemma statusFilterRows_In f data item :
  In item (statusFilterRows f data) ->
  In item data /\
  match f with
  | FilterAll => True
  | FilterReady => status item = READY
  | FilterError => status item <> READY
  end.
Proof.
  destruct f; simpl; [tauto| |]; rewrite filter_In; intros [Hin Hs];
    (split; [exact Hin|]); destruct (status item); try discriminate; congruence.
Qed.

Lemma searchFilter_In term data item :
  In item (searchFilter term data) -> In item data.
Proof.
  destruct term; simpl; [tauto|]. rewrite filter_In. tauto.
Qed.

(** ** What the table shows *)

(** X26. Whatever the sort configuration, the table shows the rows that
    pass the two filters, each as often as it occurs: with no search term and
    the filter on "all" these are all the results; every row shown is a
    result, READY under the READY filter and not READY under the error
    filter. *)
Theorem processedResults_rows
  (results : list BillingResult) (searchTerm : string)
  (statusFilter : StatusFilter) (sortConfig : SortConfig) :
  Permutation (processedResults results searchTerm statusFilter sortConfig)
              (statusFilterRows statusFilter (searchFilter searchTerm results)) /\
  Permutation (processedResults results "" FilterAll sortConfig) results /\
  Forall (fun item =>
            In item results /\
            match statusFilter with
            | FilterAll => True
            | FilterReady => status item = READY
            | FilterError => status item <> READY
            end)
         (processedResults results searchTerm statusFilter sortConfig).
Proof.
  unfold processedResults. split; [apply js_sort_perm|]. split; [apply js_sort_perm|].
  apply List.Forall_forall. intros item Hin.
  apply (Permutation_in _ (js_sort_perm _ _)) in Hin.
  apply statusFilterRows_In in Hin as [Hin Hs].
  split; [now apply searchFilter_In in Hin|exact Hs].
Qed.

(** X27. Sorted by status, ascending (the configuration the table starts
    with), the rows that are not READY come first and the READY rows after
    them, each group in the order of the results; descending, the READY rows
    come first. *)
Theorem status_sort_groups
  (results : list BillingResult) (searchTerm : string) (statusFilter : StatusFilter) :
  let data := statusFilterRows statusFilter (searchFilter searchTerm results) in
  processedResults results searchTerm statusFilter (mkSortConfig SortStatus asc)
  = (List.filter (fun r => negb (is_ready (status r))) data
     ++ List.filter (fun r => is_ready (status r)) data)%list /\
  processedResults results searchTerm statusFilter (mkSortConfig SortStatus desc)
  = (List.filter (fun r => is_ready (status r)) data
     ++ List.filter (fun r => negb (is_ready (status r))) data)%list.
Proof.
  intros data. unfold processedResults. fold data. split.
  - apply (js_sort_two_groups _ (fun r => is_ready (status r))).
    intros x y. unfold compareResults. simpl.
    now destruct (is_ready (status x)), (is_ready (status y)).
  - rewrite (js_sort_two_groups _ (fun r => negb (is_ready (status r)))).
    + f_equal. apply filter_ext. intros r. apply negb_involutive.
    + intros x y. unfold compareResults. simpl.
      now destruct (is_ready (status x)), (is_ready (status y)).
Qed.

End TableProperties.

(** ** Running the service *)

#[local] Existing Instance show_number.

Example tiered_above_included :
  calculateBill (acme 8) (Some tiered_rule)
  = mkBillingResult (acme 8) (Some tiered_rule) 165
      "Base R$129 + (3 extras x R$12)" READY.
Proof. vm_compute. reflexivity. Qed.

Example tiered_at_boundary :
  calculateBill (acme 5) (Some tiered_rule)
  = mkBillingResult (acme 5) (Some tiered_rule) 129 "Fixo (Até 5 func.)" READY.
Proof. vm_compute. reflexivity. Qed.

Example per_head_minimum_enforced :
  calculateBill (acme 4) (Some per_head_rule)
  = mkBillingResult (acme 4) (Some per_head_rule) 130
      "10 faturados x R$13 (Mínimo: 10)" READY.
Proof. vm_compute. reflexivity. Qed.

Example reconcile_two_companies :
  map (fun res => (status res, calculatedAmount res))
      (reconcileData
         [acme 15; mkSocData "11.111.111/0001-11" "Nobody" 3]
         [tiered_rule; other_rule; per_head_rule])
  = [(READY, 195%Q); (MISSING_RULE, 0%Q)].
Proof. vm_compute. reflexivity. Qed.

(** ** The claims at concrete inputs *)

Lemma reconcile_last_rule_wins_witness :
  (forall r', In r' [other_rule] -> rule_key r' <> rule_key flat_rule) /\
  [acme 7] !! 0%nat = Some (acme 7) /\
  soc_key (acme 7) = rule_key flat_rule /\
  rule_key tiered_rule = rule_key flat_rule /\
  reconcileData [acme 7] ([tiered_rule] ++ flat_rule :: [other_rule])%list !! 0%nat
  = Some (calculateBill (acme 7) (Some flat_rule)).
Proof.
  assert (H : forall r', In r' [other_rule] -> rule_key r' <> rule_key flat_rule).
  { intros r' [<-|[]]. vm_compute. discriminate. }
  split; [exact H|]. do 3 (split; [reflexivity|]).
  exact (reconcile_last_rule_wins [tiered_rule] [other_rule] flat_rule
           [acme 7] 0 (acme 7) H eq_refl eq_refl).
Defined.

Lemma unknown_model_ready_witness :
  model hourly_rule <> PricingModel.TIERED /\
  model hourly_rule <> PricingModel.PER_HEAD_MIN /\
  model hourly_rule <> PricingModel.FLAT /\
  calculatedAmount (calculateBill (acme 7) (Some hourly_rule)) = 0%Q /\
  details (calculateBill (acme 7) (Some hourly_rule)) = "Modelo desconhecido" /\
  status (calculateBill (acme 7) (Some hourly_rule)) = READY.
Proof.
  assert (H1 : model hourly_rule <> PricingModel.TIERED) by (vm_compute; discriminate).
  assert (H2 : model hourly_rule <> PricingModel.PER_HEAD_MIN) by (vm_compute; discriminate).
  assert (H3 : model hourly_rule <> PricingModel.FLAT) by (vm_compute; discriminate).
  pose proof (unknown_model_ready (acme 7) hourly_rule H1 H2 H3) as H.
  cbv zeta in H. destruct H as (Ha & Hd & Hs & _).
  exact (conj H1 (conj H2 (conj H3 (conj Ha (conj Hd Hs))))).
Defined.

(** ** The further properties at concrete inputs *)

#[local] Existing Instance ascii_strings.

Example default_view_lists_failures_first :
  map (fun r => (companyName (socData r), status r))
      (processedResults (results edited_state) "" FilterAll (mkSortConfig SortStatus asc))
  = [("Nobody", MISSING_RULE); ("Acme", READY)].
Proof. vm_compute. reflexivity. Qed.

Example search_by_lowercase_name :
  map (fun r => companyName (socData r))
      (processedResults (results edited_state) "ACM" FilterAll
         (mkSortConfig SortCalculatedAmount desc))
  = ["Acme"].
Proof. vm_compute. reflexivity. Qed.



Lemma edited_state_reachable : reachable edited_state.
Proof. apply reach_update, reach_loaded, reach_initial. Qed.

Lemma cleanCnpj_ignores_separators_witness :
  (forall c, In c (list_ascii_of_string "./-") -> is_digit c = false) /\
  cleanCnpj ("12" ++ "./-" ++ "345") = cleanCnpj ("12" ++ "345").
Proof.
  assert (H : forall c, In c (list_ascii_of_string "./-") -> is_digit c = false).
  { intros c Hc. simpl in Hc.
    destruct Hc as [<-|[<-|[<-|[]]]]; reflexivity. }
  exact (conj H (cleanCnpj_ignores_separators "12" "./-" "345" H)).
Defined.


Lemma reconcile_rule_order_irrelevant_witness :
  Permutation [tiered_rule; other_rule] [other_rule; tiered_rule] /\
  List.NoDup (map rule_key [tiered_rule; other_rule]) /\
  reconcileData [acme 8; nobody] [tiered_rule; other_rule]
  = reconcileData [acme 8; nobody] [other_rule; tiered_rule].
Proof.
  assert (Hp : Permutation [tiered_rule; other_rule] [other_rule; tiered_rule])
    by apply perm_swap.
  assert (Hn : List.NoDup (map rule_key [tiered_rule; other_rule])).
  { constructor; [|constructor; [intros []|constructor]].
    intros [H|[]]. vm_compute in H. discriminate H. }
  exact (conj Hp (conj Hn
           (reconcile_rule_order_irrelevant [acme 8; nobody] _ _ Hp Hn))).
Defined.

Lemma reconcile_drop_rule_witness :
  (exists later, In later [flat_rule] /\ rule_key later = rule_key tiered_rule) /\
  reconcileData [acme 8; nobody] ([other_rule] ++ tiered_rule :: [flat_rule])
  = reconcileData [acme 8; nobody] ([other_rule] ++ [flat_rule]).
Proof.
  assert (H : exists later, In later [flat_rule] /\ rule_key later = rule_key tiered_rule).
  { exists flat_rule. split; [now left|reflexivity]. }
  exact (conj H (reconcile_drop_rule [acme 8; nobody] [other_rule] [flat_rule]
                   tiered_rule (or_intror H))).
Defined.

Lemma update_commutes_witness :
  "12345678000190" <> "11.111.111/0001-11" /\
  updateResults "12345678000190" 8 (updateResults "11.111.111/0001-11" 6 sample_results)
  = updateResults "11.111.111/0001-11" 6 (updateResults "12345678000190" 8 sample_results).
Proof.
  assert (H : "12345678000190" <> "11.111.111/0001-11") by discriminate.
  exact (conj H (update_commutes _ _ 8 6 sample_results H)).
Defined.

Lemma reachable_results_consistent_witness :
  reachable edited_state /\
  In (calculateBill nobody None) (results edited_state) /\
  own_bill (calculateBill nobody None) /\
  calculatedAmount (calculateBill nobody None) = 0%Q.
Proof.
  assert (Hin : In (calculateBill nobody None) (results edited_state))
    by (right; left; reflexivity).
  destruct (reachable_results_consistent edited_state _ edited_state_reachable Hin)
    as (Hown & _ & _ & Hzero).
  assert (Hnr : status (calculateBill nobody None) <> READY) by discriminate.
  exact (conj edited_state_reachable (conj Hin (conj Hown (proj1 (Hzero Hnr))))).
Defined.

Lemma update_current_count_noop_witness :
  reachable edited_state /\
  (forall item, In item (results edited_state) ->
                soc_cnpj (socData item) = "12345678000190" ->
                activeEmployees (socData item) = 8%Q) /\
  updateResults "12345678000190" 8 (results edited_state) = results edited_state.
Proof.
  assert (H : forall item, In item (results edited_state) ->
                           soc_cnpj (socData item) = "12345678000190" ->
                           activeEmployees (socData item) = 8%Q).
  { intros item [<-|[<-|[]]] Hc; [reflexivity|discriminate Hc]. }
  exact (conj edited_state_reachable
           (conj H (update_current_count_noop edited_state _ _ edited_state_reachable H))).
Defined.

Lemma save_unchanged_edit_witness :
  reachable edited_state /\
  In (calculateBill (acme 8) (Some tiered_rule)) (results edited_state) /\
  saveEditing (startEditing (calculateBill (acme 8) (Some tiered_rule))
                            (mkEditState None 0))
              edited_state
  = (mkEditState None 8, {| results := results edited_state; analysis := None |}).
Proof.
  assert (Hin : In (calculateBill (acme 8) (Some tiered_rule)) (results edited_state))
    by (left; reflexivity).
  assert (Hsame : forall other, In other (results edited_state) ->
            soc_cnpj (socData other)
            = soc_cnpj (socData (calculateBill (acme 8) (Some tiered_rule))) ->
            activeEmployees (socData other)
            = activeEmployees (socData (calculateBill (acme 8) (Some tiered_rule)))).
  { intros other [<-|[<-|[]]] Hc; [reflexivity|discriminate Hc]. }
  destruct (save_unchanged_edit edited_state _ (mkEditState None 0)
              edited_state_reachable Hin Hsame) as [Hsave _].
  assert (Hne : soc_cnpj (socData (calculateBill (acme 8) (Some tiered_rule))) <> "")
    by discriminate.
  exact (conj edited_state_reachable (conj Hin (Hsave Hne))).
Defined.

Lemma revenue_agrees_with_report_witness :
  reachable edited_state /\
  (totalRevenue (results edited_state) == totalRev (results edited_state))%Q.
Proof.
  exact (conj edited_state_reachable
           (revenue_agrees_with_report edited_state edited_state_reachable)).
Defined.


(** ** The pricing formulas at prices with cents *)

#[local] Existing Instance Binary64.blank_printer.

Lemma loaded_state_reachable : reachable loaded_state.
Proof. apply reach_loaded, reach_initial. Qed.

Remark stray_item_unreachable (st : AppState) :
  reachable st -> ~ In stray_item (results st).
Proof.
  intros Hst Hin. apply reachable_rule_matches in Hst.
  rewrite List.Forall_forall in Hst.
  specialize (Hst stray_item Hin stray_rule eq_refl). discriminate Hst.
Qed.

Example rounded_excess :
  Binary64.calculatedAmount (Binary64.calculateBill (acme64 8) (Some cents_rule))
  = 168.60000000000002%float.
Proof. reflexivity. Qed.

Example count_above_exact_integers :
  Binary64.calculatedAmount
    (Binary64.calculateBill (acme64 9007199254740992) (Some unit_rule))
  = 9007199254740992%float.
Proof. reflexivity. Qed.

Example minimum_at_rounded_rate :
  Binary64.calculatedAmount (Binary64.calculateBill (acme64 1) (Some seventy_rule))
  = 2.0999999999999996%float.
Proof. reflexivity. Qed.

Example Math_max_zeros_and_nan :
  (Binary64.Math_max (-0) 0, Binary64.Math_max 0 (-0), Binary64.Math_max (-0) (-0),
   Binary64.Math_max PrimFloat.nan 1, Binary64.Math_max 2 PrimFloat.infinity)%float
  = (0, 0, -0, PrimFloat.nan, PrimFloat.infinity)%float.
Proof. reflexivity. Qed.

Example falsy_fields_default_to_zero :
  (Binary64.or_zero (Some PrimFloat.nan), Binary64.or_zero (Some (-0)),
   Binary64.or_zero None, Binary64.or_zero (Some 5))%float
  = (0, 0, 0, 5)%float.
Proof. reflexivity. Qed.

Example count_not_a_number :
  Binary64.calculatedAmount
    (Binary64.calculateBill (acme64 PrimFloat.nan) (Some cents_rule))
  = PrimFloat.nan.
Proof. reflexivity. Qed.

Lemma tiered_amount_witness :
  Binary64.model cents_rule = PricingModel.TIERED /\
  (5 <=? 5)%float = true /\
  Binary64.calculatedAmount (Binary64.calculateBill (acme64 5) (Some cents_rule))
  = 129.9%float /\
  (8 <=? 5)%float = false /\
  Binary64.calculatedAmount (Binary64.calculateBill (acme64 8) (Some cents_rule))
  = 168.60000000000002%float.
Proof.
  pose proof (tiered_amount (acme64 5) cents_rule eq_refl) as H5.
  pose proof (tiered_amount (acme64 8) cents_rule eq_refl) as H8.
  cbv zeta in H5, H8.
  destruct H5 as (H5 & _ & _), H8 as (_ & _ & H8).
  exact (conj eq_refl (conj eq_refl (conj (H5 eq_refl) (conj eq_refl (H8 eq_refl))))).
Defined.

Lemma per_head_min_amount_witness :
  Binary64.model dime_rule = PricingModel.PER_HEAD_MIN /\
  Binary64.calculatedAmount (Binary64.calculateBill (acme64 3) (Some dime_rule))
  = 0.30000000000000004%float.
Proof.
  pose proof (per_head_min_amount (acme64 3) dime_rule eq_refl) as H.
  cbv zeta in H. destruct H as [H _].
  exact (conj eq_refl H).
Defined.

Lemma update_frame_and_rerun_witness :
  reachable loaded_state /\
  results loaded_state !! 0%nat = Some (calculateBill (acme 4) (Some tiered_rule)) /\
  length (results (handleUpdate "12345678000190" 8 loaded_state)) = 2%nat /\
  results (handleUpdate "12345678000190" 8 loaded_state) !! 0%nat
  = Some (calculateBill (acme 8) (Some tiered_rule)) /\
  reconcileData [acme 8] [tiered_rule] = [calculateBill (acme 8) (Some tiered_rule)].
Proof.
  assert (Hi : results loaded_state !! 0%nat
               = Some (calculateBill (acme 4) (Some tiered_rule))) by reflexivity.
  pose proof (update_frame_and_rerun loaded_state "12345678000190" 8 0 _
                loaded_state_reachable Hi) as H.
  cbv zeta in H. destruct H as (Hlen & _ & Hhit).
  destruct (Hhit eq_refl) as (Hupd & Hrerun & _).
  exact (conj loaded_state_reachable (conj Hi (conj Hlen (conj Hupd Hrerun)))).
Defined.
